(** * The image-match server: a model of [server.py]

    The server is a thin layer of request handlers over two collaborators:
    an Elasticsearch index of image records and the image-signature engine.
    The handlers are embedded as computations in a state-and-exception monad
    whose state is the index together with the journal of the calls made to
    it; the collaborators themselves are parameters of the development. *)

From Stdlib Require Import List String Ascii Bool Arith ZArith QArith Lia Lqa.
From Stdlib Require Import PrimFloat.
Import ListNotations.

Local Close Scope Q_scope.
Local Open Scope string_scope.

(** ** Values exchanged with the client *)

(** What [json.loads] produces and [json.dumps] consumes. *)
#[local] Unset Elimination Schemes.
Inductive json : Type :=
| JNull
| JBool (b : bool)
| JNum (q : Q)
| JStr (s : string)
| JArr (l : list json)
| JObj (l : list (string * json)).
#[local] Set Elimination Schemes.

(** The pair [(img, bs)] returned by [get_image]: a URL taken from the form
    with the flag [False], or the bytes of an uploaded file with the flag
    [True]. The flag is a function of which of the two was read. *)
Inductive image : Type :=
| ImgUrl (url : string)
| ImgBytes (data : list Byte.byte).

Definition bytestream (img : image) : bool :=
  match img with
  | ImgUrl _ => false
  | ImgBytes _ => true
  end.

Inductive http_method : Type := GET | POST | DELETE.

(** A Flask request: the query string, the form fields and the uploaded
    files are multi-dictionaries, read through their first entry for a key. *)
Record request : Type := {
  req_method : http_method;
  req_args : list (string * string);
  req_form : list (string * string);
  req_files : list (string * list Byte.byte)
}.

Fixpoint lookup {V : Type} (k : string) (d : list (string * V)) : option V :=
  match d with
  | [] => None
  | (k', v) :: d' => if String.eqb k k' then Some v else lookup k d'
  end.

(** The dictionary every handler serialises as its answer. *)
Record envelope : Type := {
  status : string;
  error : list string;
  method : string;
  result : list json
}.

Definition ok (name : string) (res : list json) : envelope :=
  {| status := "ok"; error := []; method := name; result := res |}.

(** ** Globals *)

Record config : Type := {
  all_orientations : string;
  default_min_score : Q;
  auth_token : option string
}.

(** ** Exceptions *)

Inductive exn : Type :=
| ValueError (msg : string)
| JSONDecodeError (doc : string)
| BadRequestKeyError (key : string)
| NotFoundError (id : nat)
| ImageError.

(** [JSONDecodeError] is a subclass of [ValueError]. *)
Definition is_ValueError (e : exn) : bool :=
  match e with
  | ValueError _ | JSONDecodeError _ => true
  | _ => false
  end.

(** [BadRequestKeyError] is the only HTTP exception among them (code 400). *)
Definition http_code (e : exn) : option Z :=
  match e with
  | BadRequestKeyError _ => Some 400%Z
  | _ => None
  end.

Inductive outcome (A : Type) : Type :=
| Return (a : A)
| Raise (e : exn).

Arguments Return {A} a.
Arguments Raise {A} e.

(** A value that is there, or else the exception. *)
Definition expect {A : Type} (o : option A) (e : exn) : outcome A :=
  match o with
  | Some a => Return a
  | None => Raise e
  end.

(** ** Score helpers *)

Definition dist_to_percent (dist : Q) : Q := ((1 - dist) * 100)%Q.

Definition dist_from_percent (percent : Q) : Q := (1 - percent / 100)%Q.

(** The same two helpers on binary64 floats, the numbers Python computes
    with; the development reasons on the rational versions above. *)
Module Binary64.

Definition dist_to_percent (dist : float) : float :=
  ((1 - dist) * 100)%float.

Definition dist_from_percent (percent : float) : float :=
  (1 - percent / 100)%float.

(** The float closest to one tenth. *)
Definition tenth : float := 0x1.999999999999ap-4%float.

End Binary64.

(** The message of the [ValueError] raised by [add_handler]; the word image
    stands between double quotes (character 34). *)
Definition filepath_required : string :=
  "filepath must be provided if image is passed as "
  ++ String (ascii_of_nat 34) ("image" ++ String (ascii_of_nat 34) "").

(** ** Collaborators

    The signature engine ([image_match.goldberg]), the functions of the
    Python runtime, and the one choice the spec leaves to the index. *)
Class Collaborators : Type := {
  (** Opaque fingerprints. *)
  Sig : Type;
  (** [generate_signature(img, bytestream=bs)]; [None] when the image cannot
      be fetched or decoded. *)
  generate_signature : image -> option Sig;
  (** [normalized_distance(sig1, sig2)], a number between 0 and 1. *)
  normalized_distance : Sig -> Sig -> Q;
  (** The signatures of the other rotations and flips of an image, tried
      by a search with [all_orientations]. *)
  orientation_signatures : image -> option (list Sig);
  (** Whether a record at exactly the cutoff distance is within it. *)
  cutoff_inclusive : bool;
  (** [json.loads], [float] and [int] on strings; [None] where they raise. *)
  json_loads : string -> option json;
  py_float : string -> option Q;
  py_int : string -> option Z;
  (** [str(e)]. *)
  str : exn -> string
}.

Section Server.

Context {C : Collaborators}.

(** ** The index *)

Record doc : Type := {
  _id : nat;
  path : string;
  signature : Sig;
  metadata : json
}.

(** The calls a handler makes to the index, as written in the source. *)
Inductive es_call : Type :=
| EsSearchPath (q_path : string)
| EsSearchPage (from_ size : Z)
| EsCount
| EsDelete (id : nat)
| SesAddImage (p : string) (img : image) (bs : bool) (md : json)
| SesSearchImage (distance_cutoff : Q) (img : image) (ao bs : bool).

(** The state a request runs against: the records of the index in insertion
    order, and the journal of the calls made so far. *)
Record world : Type := {
  docs : list doc;
  calls : list es_call
}.

Definition M (A : Type) : Type := world -> outcome A * world.

Definition ret {A : Type} (a : A) : M A := fun w => (Return a, w).

(** A computation that does not touch the index. *)
Definition lift {A : Type} (o : outcome A) : M A := fun w => (o, w).

Definition bind {A B : Type} (m : M A) (k : A -> M B) : M B :=
  fun w =>
    match m w with
    | (Return a, w') => k a w'
    | (Raise e, w') => (Raise e, w')
    end.

Definition journal (c : es_call) : M unit :=
  fun w => (Return tt, {| docs := docs w; calls := calls w ++ [c] |}).

Definition get_docs : M (list doc) := fun w => (Return (docs w), w).

Definition put_docs (ds : list doc) : M unit :=
  fun w => (Return tt, {| docs := ds; calls := calls w |}).

Notation "x <- m ;; k" := (bind m (fun x => k))
  (at level 61, m at next level, right associativity).
Notation "m ;;; k" := (bind m (fun _ => k))
  (at level 61, right associativity).

(** *** The index operations

    Modelled from the spec: the Elasticsearch client and the [SignatureES]
    driver are libraries outside [src/]; their operations follow the
    Similarity Index of the spec (insert, delete by id, find by exact field,
    search by distance, page, count). *)

(** Modelled from the spec: the id the index assigns on insert is opaque;
    here, one above every id in use. *)
Definition new_id (ds : list doc) : nat :=
  S (fold_right Nat.max 0 (map _id ds)).

Definition has_path (p : string) (d : doc) : bool := String.eqb (path d) p.

Definition has_id (i : nat) (d : doc) : bool := Nat.eqb (_id d) i.

(** Modelled from the spec: [es.search(q='path:' + json.dumps(p))], the
    records whose [path] equals the given value. *)
Definition es_search_path (p : string) : M (list doc) :=
  journal (EsSearchPath p) ;;;
  ds <- get_docs ;;
  ret (filter (has_path p) ds).

(** Modelled from the spec: [es.search(from_=offset, size=limit)], up to
    [limit] records starting at [offset] in the order of the index. *)
Definition es_search_page (offset limit : Z) : M (list doc) :=
  journal (EsSearchPage offset limit) ;;;
  ds <- get_docs ;;
  ret (firstn (Z.to_nat limit) (skipn (Z.to_nat offset) ds)).

(** Modelled from the spec: [es.count]. *)
Definition es_count : M Z :=
  journal EsCount ;;;
  ds <- get_docs ;;
  ret (Z.of_nat (List.length ds)).

(** Modelled from the spec: [es.delete(id=i, ignore=...)]; a missing id is
    a 404, which raises unless it is ignored. *)
Definition es_delete (i : nat) (ignore_404 : bool) : M unit :=
  journal (EsDelete i) ;;;
  ds <- get_docs ;;
  if existsb (has_id i) ds
  then put_docs (filter (fun d => negb (has_id i d)) ds)
  else if ignore_404 then ret tt else lift (Raise (NotFoundError i)).

(** Modelled from the spec: [ses.add_image], which computes the signature
    and inserts a new record with the given path and metadata. *)
Definition ses_add_image (p : string) (img : image) (bs : bool) (md : json)
  : M unit :=
  journal (SesAddImage p img bs md) ;;;
  sg <- lift (expect (generate_signature img) ImageError) ;;
  ds <- get_docs ;;
  put_docs (ds ++ [{| _id := new_id ds; path := p;
                      signature := sg; metadata := md |}]).

(** A search hit: the record and its distance to the probe. *)
Definition hit : Type := (doc * Q)%type.

Definition hit_dist (h : hit) : Q := snd h.

Definition within (cutoff d : Q) : bool :=
  if cutoff_inclusive then Qle_bool d cutoff
  else negb (Qle_bool cutoff d).

Definition Qmin_b (a b : Q) : Q := if Qle_bool a b then a else b.

(** The distance of a record to the closest of the probe's signatures. *)
Definition best_dist (s : Sig) (others : list Sig) (d : doc) : Q :=
  fold_left Qmin_b
    (map (fun s' => normalized_distance s' (signature d)) others)
    (normalized_distance s (signature d)).

Fixpoint insert_hit (h : hit) (l : list hit) : list hit :=
  match l with
  | [] => [h]
  | h' :: l' =>
      if Qle_bool (hit_dist h) (hit_dist h') then h :: l
      else h' :: insert_hit h l'
  end.

(** Ascending distance, ties in the order of the index. *)
Definition sort_hits (l : list hit) : list hit :=
  fold_right insert_hit [] l.

(** Modelled from the spec: [SignatureES(distance_cutoff).search_image], the
    records within the cutoff of the probe (of any of its orientations when
    [ao] is set), closest first. *)
Definition ses_search_image (cutoff : Q) (img : image) (ao bs : bool)
  : M (list hit) :=
  journal (SesSearchImage cutoff img ao bs) ;;;
  sg <- lift (expect (generate_signature img) ImageError) ;;
  others <- lift (if ao then expect (orientation_signatures img) ImageError
                  else Return []) ;;
  ds <- get_docs ;;
  ret (sort_hits
         (filter (fun h => within cutoff (hit_dist h))
            (map (fun d => (d, best_dist sg others d)) ds))).

(** ** Helpers *)

Definition ids_with_path (p : string) : M (list nat) :=
  matches <- es_search_path p ;;
  ret (map _id matches).

Definition paths_at_location (offset limit : Z) : M (list string) :=
  search <- es_search_page offset limit ;;
  ret (map path search).

Definition count_images : M Z := es_count.

Fixpoint delete_ids (ids : list nat) : M unit :=
  match ids with
  | [] => ret tt
  | i :: ids' => es_delete i true ;;; delete_ids ids'
  end.

Definition get_image (url_field file_field : string) (r : request)
  : outcome image :=
  match lookup url_field (req_form r) with
  | Some u => Return (ImgUrl u)
  | None =>
      match lookup file_field (req_files r) with
      | Some data => Return (ImgBytes data)
      | None => Raise (BadRequestKeyError file_field)
      end
  end.

(** What a route answers: a body and an HTTP status. *)
Inductive body : Type :=
| Envelope (e : envelope)
| EmptyObject.

Definition response : Type := (body * Z)%type.

(** The decorator: with a token configured, a request whose [token]
    argument differs from it is answered 403 and the handler is not run. *)
Definition login_required (cfg : config) (f : request -> M response)
  (r : request) : M response :=
  match auth_token cfg with
  | Some (String c t) =>
      match lookup "token" (req_args r) with
      | Some t' => if String.eqb t' (String c t) then f r
                   else ret (EmptyObject, 403%Z)
      | None => ret (EmptyObject, 403%Z)
      end
  | _ => f r
  end.

(** ** Routes *)

(** [json.loads(request.form.get('metadata', 'null'))]. *)
Definition metadata_of (r : request) : outcome json :=
  expect (json_loads (match lookup "metadata" (req_form r) with
                      | Some s => s
                      | None => "null"
                      end))
    (JSONDecodeError "metadata").

(** The path of an add: the [filepath] field when it is a non-empty string;
    otherwise the image itself, which must then be a URL. *)
Definition path_of (fp : option string) (img : image) : outcome string :=
  match fp with
  | Some (String c s) => Return (String c s)
  | _ =>
      match img with
      | ImgBytes _ => Raise (ValueError filepath_required)
      | ImgUrl u => Return u
      end
  end.

Definition add_handler (r : request) : M envelope :=
  md <- lift (metadata_of r) ;;
  img <- lift (get_image "url" "image" r) ;;
  let bs := bytestream img in
  p <- lift (path_of (lookup "filepath" (req_form r)) img) ;;
  old_ids <- ids_with_path p ;;
  ses_add_image p img bs md ;;;
  delete_ids old_ids ;;;
  ret (ok "add" []).

Definition delete_handler (r : request) : M envelope :=
  p <- lift (expect (lookup "filepath" (req_form r))
               (BadRequestKeyError "filepath")) ;;
  ids <- ids_with_path p ;;
  delete_ids ids ;;;
  ret (ok "delete" []).

(** The string compared with [true] to decide [ao]: the form field, or else
    the global. *)
Definition ao_field (cfg : config) (r : request) : string :=
  match lookup "all_orientations" (req_form r) with
  | Some s => s
  | None => all_orientations cfg
  end.

(** [float(min_score)]: the form field parsed, or else the global, which is
    a float already. *)
Definition min_score_of (cfg : config) (r : request) : outcome Q :=
  match lookup "min_score" (req_form r) with
  | Some s => expect (py_float s)
                (ValueError "could not convert string to float")
  | None => Return (default_min_score cfg)
  end.

Definition match_entry (m : hit) : json :=
  JObj [("score", JNum (dist_to_percent (hit_dist m)));
        ("filepath", JStr (path (fst m)));
        ("metadata", metadata (fst m))].

Definition search_handler (cfg : config) (r : request) : M envelope :=
  img <- lift (get_image "url" "image" r) ;;
  let bs := bytestream img in
  let ao := String.eqb (ao_field cfg r) "true" in
  min_score <- lift (min_score_of cfg r) ;;
  matches <- ses_search_image (dist_from_percent min_score) img ao bs ;;
  ret (ok "search" (map match_entry matches)).

Definition compare_handler (r : request) : M envelope :=
  img1 <- lift (get_image "url1" "image1" r) ;;
  img2 <- lift (get_image "url2" "image2" r) ;;
  img1_sig <- lift (expect (generate_signature img1) ImageError) ;;
  img2_sig <- lift (expect (generate_signature img2) ImageError) ;;
  let score := dist_to_percent (normalized_distance img1_sig img2_sig) in
  ret (ok "compare" [JObj [("score", JNum score)]]).

Definition count_handler (r : request) : M envelope :=
  count <- count_images ;;
  ret (ok "count" [JNum (inject_Z count)]).

(** [int(d.get(key, default))]. *)
Definition int_field (d : list (string * string)) (key : string)
  (default : Z) : outcome Z :=
  match lookup key d with
  | Some s => expect (py_int s) (ValueError "invalid literal for int()")
  | None => Return default
  end.

(** The dictionary [list_handler] reads: the query string of a GET, the
    form otherwise. *)
Definition list_fields (r : request) : list (string * string) :=
  match req_method r with
  | GET => req_args r
  | _ => req_form r
  end.

Definition list_handler (r : request) : M envelope :=
  o <- lift (int_field (list_fields r) "offset" 0%Z) ;;
  let offset := Z.max o 0 in
  l <- lift (int_field (list_fields r) "limit" 20%Z) ;;
  let limit := Z.max l 0 in
  paths <- paths_at_location offset limit ;;
  ret (ok "list" (map JStr paths)).

Definition ping_handler (r : request) : M envelope :=
  ret (ok "ping" []).

(** ** Error handling *)

Definition fail (errors : list string) : envelope :=
  {| status := "fail"; error := errors; method := ""; result := [] |}.

Definition bad_request : response :=
  (Envelope (fail ["bad request"]), 400%Z).

Definition page_not_found : response :=
  (Envelope (fail ["not found"]), 404%Z).

Definition method_not_allowed : response :=
  (Envelope (fail ["method not allowed"]), 405%Z).

Definition server_error (e : exn) : response :=
  (Envelope (fail [str e]), 500%Z).

(** How Flask answers for a view: a returned body goes out with status 200;
    an HTTP exception goes to the handler registered for its code; any other
    exception goes to the handler registered for 500. *)
Definition respond (o : outcome envelope) : response :=
  match o with
  | Return e => (Envelope e, 200%Z)
  | Raise e =>
      match http_code e with
      | Some _ => bad_request
      | None => server_error e
      end
  end.

(** Statuses 400 to 499. *)
Definition client_error (resp : response) : bool :=
  (400 <=? snd resp)%Z && (snd resp <? 500)%Z.

(** A view as the application serves it. *)
Definition serve (cfg : config) (view : request -> M envelope)
  : request -> M response :=
  login_required cfg
    (fun r w => let (o, w') := view r w in (Return (respond o), w')).

(** ** Runs and journals *)

(** What an add works with once the request is read: the metadata, the
    image and the path, or the exception raised on the way. *)
Definition add_inputs (r : request) : outcome (json * image * string) :=
  match metadata_of r with
  | Raise e => Raise e
  | Return md =>
      match get_image "url" "image" r with
      | Raise e => Raise e
      | Return img =>
          match path_of (lookup "filepath" (req_form r)) img with
          | Raise e => Raise e
          | Return p => Return (md, img, p)
          end
      end
  end.

(** The record an add inserts. *)
Definition new_doc (ds : list doc) (p : string) (sg : Sig) (md : json)
  : doc :=
  {| _id := new_id ds; path := p; signature := sg; metadata := md |}.

(** Add requests served one after the other, each to completion. *)
Fixpoint run_adds (rs : list request) : M unit :=
  match rs with
  | [] => ret tt
  | r :: rs' => add_handler r ;;; run_adds rs'
  end.

(** No delete is journaled ahead of the first insert. *)
Fixpoint insert_before_retire (js : list es_call) : bool :=
  match js with
  | [] => true
  | SesAddImage _ _ _ _ :: _ => true
  | EsDelete _ :: _ => false
  | _ :: js' => insert_before_retire js'
  end.

(** The record is among those retired by [delete_ids ids]. *)
Definition retired (ids : list nat) (d : doc) : bool :=
  existsb (fun i => has_id i d) ids.

End Server.

Arguments doc {C}.
Arguments world {C}.
Arguments es_call : clear implicits.

(** ** A small instance to run the model on *)

Module Demo.

Fixpoint digits (s : string) (acc : Z) : option Z :=
  match s with
  | EmptyString => Some acc
  | String c s' =>
      let n := nat_of_ascii c in
      if (48 <=? n)%nat && (n <=? 57)%nat
      then digits s' (10 * acc + Z.of_nat (n - 48))%Z
      else None
  end.

(** Decimal integers with an optional minus sign. *)
Definition decimal (s : string) : option Z :=
  match s with
  | EmptyString => None
  | String "-" (String c s') => option_map Z.opp (digits (String c s') 0%Z)
  | _ => digits s 0%Z
  end.

(** Images are told apart by their size only. *)
Definition size_of (img : image) : option nat :=
  match img with
  | ImgUrl EmptyString => None
  | ImgUrl u => Some (String.length u)
  | ImgBytes data => Some (List.length data)
  end.

#[export] Instance collaborators : Collaborators := {|
  Sig := nat;
  generate_signature := size_of;
  normalized_distance := fun a b =>
    if Nat.eqb a b then 0%Q
    else if Nat.eqb (S a) b || Nat.eqb a (S b) then (1 # 4)%Q
    else 1%Q;
  orientation_signatures := fun img => option_map (fun n => [S n]) (size_of img);
  cutoff_inclusive := false;
  json_loads := fun s =>
    if String.eqb s "null" then Some JNull
    else if String.eqb s "{}" then Some (JObj [])
    else option_map (fun z => JNum (inject_Z z)) (decimal s);
  py_float := fun s => option_map inject_Z (decimal s);
  py_int := decimal;
  str := fun _ => "error"
|}.

Definition empty : world := {| docs := []; calls := [] |}.

Definition post (fields : list (string * string))
  (uploads : list (string * list Byte.byte)) : request :=
  {| req_method := POST; req_args := []; req_form := fields;
     req_files := uploads |}.

Definition cfg : config :=
  {| all_orientations := "true"; default_min_score := 70%Q;
     auth_token := None |}.

(** Two adds for the same path, the second one an upload. *)
Definition add_url : request :=
  post [("url", "abc"); ("filepath", "x.jpg"); ("metadata", "7")] [].

Definition add_upload : request :=
  post [("filepath", "x.jpg"); ("metadata", "{}")]
    [("image", [Byte.x00; Byte.x01])].

(** An upload that names no path. *)
Definition raw_upload : request :=
  post [] [("image", [Byte.x00])].

Definition delete_x : request :=
  {| req_method := DELETE; req_args := [];
     req_form := [("filepath", "x.jpg")]; req_files := [] |}.

Definition search_min (score : string) : request :=
  post [("url", "abcd"); ("min_score", score)] [].

Definition search_variant : request :=
  post [("url", "abcd"); ("min_score", "100"); ("all_orientations", "True")]
    [].

Definition list_page : request :=
  {| req_method := GET;
     req_args := [("offset", "-3"); ("limit", "1000000")];
     req_form := []; req_files := [] |}.

(** The index after [add_url] and then an add of another path. *)
Definition stocked : world :=
  snd (run_adds [add_url; post [("url", "abcde")] []] empty).

(** A configuration with a token, and requests with and without it. *)
Definition guarded : config :=
  {| all_orientations := "false"; default_min_score := 70%Q;
     auth_token := Some "s3cret" |}.

Definition with_token (t : string) (r : request) : request :=
  {| req_method := req_method r; req_args := [("token", t)];
     req_form := req_form r; req_files := req_files r |}.

Definition delete_nothing : request :=
  {| req_method := DELETE; req_args := []; req_form := [];
     req_files := [] |}.

Definition compare_ab : request :=
  post [("url1", "abc")] [("image2", [Byte.x00; Byte.x01; Byte.x02; Byte.x03])].



Definition list_bad : request :=
  post [("offset", "3"); ("limit", "many")] [].

Definition list_second : request :=
  post [("offset", "1"); ("limit", "5")] [].

Definition list_default : request := post [] [].

(** [list_page] again, with a form that a GET does not read. *)
Definition list_noise : request :=
  {| req_method := GET;
     req_args := [("offset", "-3"); ("limit", "1000000")];
     req_form := [("offset", "7")]; req_files := [] |}.

(** A search with the image of [add_upload]. *)
Definition search_upload : request :=
  post [("min_score", "50")] [("image", [Byte.x00; Byte.x01])].

End Demo.

(** * Properties *)

Section Properties.

Context {C : Collaborators}.

Local Open Scope Q_scope.

(** ** Score conversion *)

Lemma percent_hundredths (p : Q) : p / 100 == p * (1 # 100).
Proof. field. Qed.

Lemma dist_to_percent_range (d : Q) :
  0 <= d <= 1 -> 0 <= dist_to_percent d <= 100.
Proof. unfold dist_to_percent. intros [H0 H1]. split; lra. Qed.

Lemma dist_from_percent_range (p : Q) :
  0 <= p <= 100 -> 0 <= dist_from_percent p <= 1.
Proof.
  unfold dist_from_percent. rewrite percent_hundredths.
  intros [H0 H1]. split; lra.
Qed.

Lemma dist_from_to_percent (d : Q) :
  dist_from_percent (dist_to_percent d) == d.
Proof. unfold dist_from_percent, dist_to_percent. field. Qed.

Lemma dist_to_from_percent (p : Q) :
  dist_to_percent (dist_from_percent p) == p.
Proof. unfold dist_from_percent, dist_to_percent. field. Qed.

(** On floats the round trip is exact only up to rounding: from one tenth
    it comes back one unit in the last place below, while the edges of the
    score range are converted exactly. *)
Example binary64_round_trip :
  (Binary64.dist_from_percent (Binary64.dist_to_percent Binary64.tenth)
   =? Binary64.tenth)%float = false
  /\ (abs (Binary64.dist_from_percent
             (Binary64.dist_to_percent Binary64.tenth) - Binary64.tenth)
      <=? 0x1p-52)%float = true
  /\ (Binary64.dist_from_percent 100 =? 0)%float = true
  /\ (Binary64.dist_from_percent 0 =? 1)%float = true.
Proof. repeat split; reflexivity. Qed.

(** C4. The two conversions are inverse to each other between distances in
    [0,1] and scores in [0,100]: a distance [d] in [0,1] becomes a score in
    [0,100] from which [dist_from_percent] gives [d] back, and a score [p]
    in [0,100] becomes a distance in [0,1] from which [dist_to_percent]
    gives [p] back. Numbers are rationals, so the equalities are exact. *)
Theorem score_conversions_inverse (d p : Q) :
  0 <= d <= 1 -> 0 <= p <= 100 ->
  (0 <= dist_to_percent d <= 100
   /\ dist_from_percent (dist_to_percent d) == d)
  /\ (0 <= dist_from_percent p <= 1
      /\ dist_to_percent (dist_from_percent p) == p).
Proof.
  intros Hd Hp. repeat split;
    try apply dist_to_percent_range; try apply dist_from_percent_range;
    auto using dist_from_to_percent, dist_to_from_percent.
Qed.

(** ** Search: what is passed to the index *)

Lemma search_handler_calls (cfg : config) (r : request) (w : world)
  (img : image) (m : Q) :
  get_image "url" "image" r = Return img ->
  min_score_of cfg r = Return m ->
  calls (snd (search_handler cfg r w))
  = (calls w ++ [SesSearchImage (dist_from_percent m) img
                   (String.eqb (ao_field cfg r) "true") (bytestream img)])%list.
Proof.
  intros Himg Hm. unfold search_handler, bind, lift.
  rewrite Himg, Hm. unfold ses_search_image, bind, lift, journal.
  destruct (generate_signature img); simpl; [|reflexivity].
  destruct (String.eqb (ao_field cfg r) "true"); simpl; [|reflexivity].
  destruct (orientation_signatures img); reflexivity.
Qed.

(** C5. A search whose minimum score is 100 opens the index with a distance
    cutoff equal to 0, and one whose minimum score is at most 0 opens it
    with a cutoff of at least 1. *)
Theorem search_cutoff_edges (cfg : config) (r : request) (w : world)
  (img : image) (m : Q) :
  get_image "url" "image" r = Return img ->
  min_score_of cfg r = Return m ->
  exists c : Q,
    calls (snd (search_handler cfg r w))
    = (calls w ++ [SesSearchImage c img
                     (String.eqb (ao_field cfg r) "true")
                     (bytestream img)])%list
    /\ (m == 100 -> c == 0)
    /\ (m <= 0 -> 1 <= c).
Proof.
  intros Himg Hm. exists (dist_from_percent m). split.
  - now apply search_handler_calls.
  - unfold dist_from_percent. rewrite percent_hundredths. split; intros H.
    + rewrite H. reflexivity.
    + lra.
Qed.

(** C10. The [all_orientations] argument of the index search is true
    exactly when the form field of that name, or the global when the form
    has no such field, is the string [true]; the spellings [True], [TRUE]
    and [1] leave it false. *)
Theorem search_orientation_flag (cfg : config) (r : request) (w : world)
  (img : image) (m : Q) :
  get_image "url" "image" r = Return img ->
  min_score_of cfg r = Return m ->
  exists ao : bool,
    calls (snd (search_handler cfg r w))
    = (calls w ++ [SesSearchImage (dist_from_percent m) img ao
                     (bytestream img)])%list
    /\ (forall s, lookup "all_orientations" (req_form r) = Some s ->
         (ao = true <-> s = "true"%string))
    /\ (lookup "all_orientations" (req_form r) = None ->
         (ao = true <-> all_orientations cfg = "true"%string))
    /\ (In (ao_field cfg r) ["True"; "TRUE"; "1"]%string -> ao = false).
Proof.
  intros Himg Hm. exists (String.eqb (ao_field cfg r) "true").
  split; [now apply search_handler_calls|].
  unfold ao_field. split; [|split].
  - intros s Hs. rewrite Hs. apply String.eqb_eq.
  - intros Hs. rewrite Hs. apply String.eqb_eq.
  - intros [E|[E|[E|[]]]]; rewrite <- E; reflexivity.
Qed.

(** ** Listing *)

(** C9. A list request whose offset and limit read as [o] and [l] (0 and 20
    when the field is absent) queries the index page with [max o 0] and
    [max l 0]: both are non-negative, and a non-negative limit is passed on
    as it is, however large. *)
Theorem list_window_clamped (r : request) (w : world) (o l : Z) :
  int_field (list_fields r) "offset" 0%Z = Return o ->
  int_field (list_fields r) "limit" 20%Z = Return l ->
  exists offset limit : Z,
    list_handler r w
    = (Return (ok "list"
                 (map JStr (map path (firstn (Z.to_nat limit)
                                        (skipn (Z.to_nat offset) (docs w)))))),
       {| docs := docs w;
          calls := (calls w ++ [EsSearchPage offset limit])%list |})
    /\ offset = Z.max o 0 /\ limit = Z.max l 0
    /\ (0 <= offset)%Z /\ (0 <= limit)%Z
    /\ ((0 <= l)%Z -> limit = l)
    /\ (lookup "offset" (list_fields r) = None -> o = 0%Z)
    /\ (lookup "limit" (list_fields r) = None -> l = 20%Z).
Proof.
  intros Ho Hl. exists (Z.max o 0), (Z.max l 0).
  unfold list_handler, bind, lift. rewrite Ho, Hl.
  repeat split; try lia.
  - intros E. unfold int_field in Ho. rewrite E in Ho. congruence.
  - intros E. unfold int_field in Hl. rewrite E in Hl. congruence.
Qed.

(** ** Lookup by path *)

Lemma has_path_iff (p : string) (d : doc) : has_path p d = true <-> path d = p.
Proof. unfold has_path. apply String.eqb_eq. Qed.

Lemma ids_with_path_run (p : string) (w : world) :
  ids_with_path p w
  = (Return (map _id (filter (has_path p) (docs w))),
     {| docs := docs w; calls := (calls w ++ [EsSearchPath p])%list |}).
Proof. reflexivity. Qed.

(** C6. [ids_with_path p] answers with the ids of the records whose path is
    equal to [p], one id per such record and in the order of the index; it
    leaves the index as it was; and it answers with the empty list when no
    record has that path. *)
Theorem ids_with_path_exact (p : string) (w : world) :
  exists ids : list nat,
    ids_with_path p w
    = (Return ids,
       {| docs := docs w; calls := (calls w ++ [EsSearchPath p])%list |})
    /\ ids = map _id (filter (fun d => if string_dec (path d) p
                                       then true else false) (docs w))
    /\ (forall i, In i ids <->
                  exists d, In d (docs w) /\ path d = p /\ _id d = i)
    /\ ((forall d, In d (docs w) -> path d <> p) -> ids = []).
Proof.
  exists (map _id (filter (has_path p) (docs w))).
  split; [apply ids_with_path_run|].
  assert (E : filter (has_path p) (docs w)
              = filter (fun d => if string_dec (path d) p
                                 then true else false) (docs w)).
  { apply filter_ext. intros d. unfold has_path.
    destruct (string_dec (path d) p) as [->|N].
    - apply String.eqb_refl.
    - now apply String.eqb_neq. }
  split; [now rewrite E|]. split.
  - intros i. rewrite in_map_iff. split.
    + intros [d [Hid Hd]]. apply filter_In in Hd as [Hin Hp].
      exists d. rewrite has_path_iff in Hp. auto.
    + intros [d [Hin [Hp Hid]]]. exists d. split; [assumption|].
      apply filter_In. rewrite has_path_iff. auto.
  - intros Hno. destruct (filter (has_path p) (docs w)) as [|d l] eqn:F.
    + reflexivity.
    + assert (Hd : In d (filter (has_path p) (docs w)))
        by (rewrite F; now left).
      apply filter_In in Hd as [Hin Hp]. rewrite has_path_iff in Hp.
      now destruct (Hno d Hin).
Qed.

(** ** Retiring records *)

Lemma filter_none {A : Type} (f : A -> bool) (l : list A) :
  existsb f l = false -> filter (fun x => negb (f x)) l = l.
Proof.
  induction l as [|x l IH]; simpl; [reflexivity|].
  intros H. apply orb_false_iff in H as [Hx Hl].
  rewrite Hx. simpl. now rewrite IH.
Qed.

Lemma filter_twice {A : Type} (f g : A -> bool) (l : list A) :
  filter g (filter f l) = filter (fun x => f x && g x) l.
Proof.
  induction l as [|x l IH]; simpl; [reflexivity|].
  destruct (f x); simpl; [destruct (g x)|]; now rewrite IH.
Qed.

Lemma es_delete_ignore (i : nat) (w : world) :
  es_delete i true w
  = (Return tt,
     {| docs := filter (fun d => negb (has_id i d)) (docs w);
        calls := (calls w ++ [EsDelete i])%list |}).
Proof.
  unfold es_delete, bind, journal, get_docs, put_docs, ret. simpl.
  destruct (existsb (has_id i) (docs w)) eqn:E; [reflexivity|].
  now rewrite filter_none.
Qed.

Lemma retire_nothing (ds : list doc) :
  filter (fun d => negb (retired [] d)) ds = ds.
Proof. apply (filter_none (fun _ => false)). now induction ds. Qed.

Lemma delete_ids_run (ids : list nat) (w : world) :
  delete_ids ids w
  = (Return tt,
     {| docs := filter (fun d => negb (retired ids d)) (docs w);
        calls := (calls w ++ map EsDelete ids)%list |}).
Proof.
  revert w. induction ids as [|i ids IH]; intros w.
  - simpl. unfold ret. rewrite app_nil_r, retire_nothing. now destruct w.
  - simpl. unfold bind at 1. rewrite es_delete_ignore, IH. simpl.
    rewrite filter_twice, <- app_assoc. simpl.
    do 2 f_equal. apply filter_ext. intros d.
    now rewrite negb_orb.
Qed.

Lemma retired_in (ids : list nat) (d : doc) :
  retired ids d = true <-> In (_id d) ids.
Proof.
  unfold retired, has_id. rewrite existsb_exists. split.
  - intros [i [Hin E]]. apply Nat.eqb_eq in E. now subst.
  - intros Hin. exists (_id d). split; [assumption|apply Nat.eqb_refl].
Qed.

Lemma filter_nothing {A : Type} (f : A -> bool) (l : list A) :
  (forall x, In x l -> f x = false) -> filter f l = [].
Proof.
  induction l as [|x l IH]; simpl; intros H; [reflexivity|].
  rewrite (H x) by now left. apply IH. intros y Hy. apply H. now right.
Qed.

(** Once the ids found for a path are retired, no record has that path. *)
Lemma retire_path_clears (p : string) (ds : list doc) :
  filter (has_path p)
    (filter (fun d => negb (retired (map _id (filter (has_path p) ds)) d)) ds)
  = [].
Proof.
  rewrite filter_twice. apply filter_nothing. intros d Hin.
  destruct (has_path p d) eqn:Hp; [|apply andb_false_r].
  rewrite andb_true_r. apply negb_false_iff, retired_in, in_map.
  apply filter_In. auto.
Qed.

Lemma delete_handler_run (r : request) (p : string) (w : world) :
  lookup "filepath" (req_form r) = Some p ->
  delete_handler r w
  = (Return (ok "delete" []),
     {| docs := filter (fun d => negb (retired
                          (map _id (filter (has_path p) (docs w))) d))
                  (docs w);
        calls := (calls w ++ EsSearchPath p
                    :: map EsDelete (map _id (filter (has_path p) (docs w))))%list
     |}).
Proof.
  intros H. unfold delete_handler, bind at 1, lift. rewrite H. simpl.
  unfold bind at 1. rewrite ids_with_path_run.
  unfold bind. rewrite delete_ids_run. simpl.
  now rewrite <- app_assoc.
Qed.

(** C8. Deleting a path succeeds, and succeeds again when repeated at once:
    after the first delete no record has the path and the second leaves the
    records as they are. Deleting a path that no record has succeeds and
    changes no record. Retiring ids never raises, whether or not they are
    in the index. *)
Theorem delete_handler_idempotent (r : request) (p : string) (w : world) :
  lookup "filepath" (req_form r) = Some p ->
  let w1 := snd (delete_handler r w) in
  let w2 := snd (delete_handler r w1) in
  fst (delete_handler r w) = Return (ok "delete" [])
  /\ fst (delete_handler r w1) = Return (ok "delete" [])
  /\ (forall d, In d (docs w1) -> path d <> p)
  /\ docs w2 = docs w1
  /\ ((forall d, In d (docs w) -> path d <> p) -> docs w1 = docs w)
  /\ (forall ids w0, fst (delete_ids ids w0) = Return tt).
Proof.
  intros H w1 w2. subst w2 w1.
  rewrite !(delete_handler_run _ p) by assumption. simpl.
  rewrite retire_path_clears. simpl.
  repeat split.
  - intros d Hin Hp.
    assert (Hd : In d (filter (has_path p)
              (filter (fun d => negb (retired
                 (map _id (filter (has_path p) (docs w))) d)) (docs w)))).
    { apply filter_In. rewrite has_path_iff. auto. }
    now rewrite retire_path_clears in Hd.
  - apply retire_nothing.
  - intros Hno. rewrite (filter_nothing (has_path p)).
    + apply retire_nothing.
    + intros d Hin. destruct (has_path p d) eqn:Hp; [|reflexivity].
      apply has_path_iff in Hp. now destruct (Hno d Hin).
  - intros ids w0. now rewrite delete_ids_run.
Qed.

(** ** Adding *)

Lemma add_handler_run (r : request) (w : world) :
  add_handler r w
  = match add_inputs r with
    | Raise e => (Raise e, w)
    | Return (md, img, p) =>
        let old := map _id (filter (has_path p) (docs w)) in
        let asked := [EsSearchPath p; SesAddImage p img (bytestream img) md] in
        match generate_signature img with
        | None =>
            (Raise ImageError,
             {| docs := docs w; calls := (calls w ++ asked)%list |})
        | Some sg =>
            (Return (ok "add" []),
             {| docs := filter (fun d => negb (retired old d))
                          (docs w ++ [new_doc (docs w) p sg md]);
                calls := (calls w ++ asked ++ map EsDelete old)%list |})
        end
    end.
Proof.
  unfold add_handler, add_inputs, bind at 1, lift.
  destruct (metadata_of r) as [md|e]; [|reflexivity].
  unfold bind at 1.
  destruct (get_image "url" "image" r) as [img|e]; [|reflexivity].
  unfold bind at 1.
  destruct (path_of (lookup "filepath" (req_form r)) img) as [p|e];
    [|reflexivity].
  unfold bind at 1. rewrite ids_with_path_run.
  unfold bind at 1, ses_add_image, bind, lift, journal, get_docs, put_docs.
  simpl. destruct (generate_signature img) as [sg|]; simpl.
  - fold (new_doc (docs w) p sg md).
    match goal with
    | |- context [delete_ids ?ids ?w0] => rewrite (delete_ids_run ids w0)
    end.
    unfold ret. simpl. now rewrite <- !app_assoc.
  - now rewrite <- app_assoc.
Qed.

Lemma insert_before_retire_add (p : string) (img : image) (md : json)
  (rest : list es_call) :
  insert_before_retire
    (EsSearchPath p :: SesAddImage p img (bytestream img) md :: rest) = true.
Proof. reflexivity. Qed.

(** C2. The index calls of an add come in one fixed order. An add whose
    request cannot be read raises and makes no call. Every other add first
    asks for the ids of the records with the path, then inserts the new
    record; when the insert raises the add stops there and nothing is
    retired; when it succeeds the add retires exactly the ids captured by
    the first step, after the insert, so that the index is the old records
    and the new one, less the retired. No delete is made ahead of the
    insert. *)
Theorem add_handler_order (r : request) (w : world) :
  exists js : list es_call,
    calls (snd (add_handler r w)) = (calls w ++ js)%list
    /\ insert_before_retire js = true
    /\ match add_inputs r with
       | Raise e => js = [] /\ add_handler r w = (Raise e, w)
       | Return (md, img, p) =>
           let old := map _id (filter (has_path p) (docs w)) in
           let asked :=
             [EsSearchPath p; SesAddImage p img (bytestream img) md] in
           match generate_signature img with
           | None =>
               js = asked
               /\ fst (add_handler r w) = Raise ImageError
               /\ docs (snd (add_handler r w)) = docs w
           | Some sg =>
               js = (asked ++ map EsDelete old)%list
               /\ fst (add_handler r w) = Return (ok "add" [])
               /\ docs (snd (add_handler r w))
                  = filter (fun d => negb (retired old d))
                      (docs w ++ [new_doc (docs w) p sg md])
           end
       end.
Proof.
  rewrite add_handler_run.
  destruct (add_inputs r) as [[[md img] p]|e].
  - simpl. destruct (generate_signature img) as [sg|]; simpl.
    + eexists. split; [reflexivity|]. split; [reflexivity|].
      repeat split; reflexivity.
    + eexists. split; [reflexivity|]. split; [reflexivity|].
      repeat split; reflexivity.
  - exists []. simpl. rewrite app_nil_r. repeat split; reflexivity.
Qed.

(** An add whose request reads well and whose image decodes succeeds. *)
Lemma add_handler_succeeds (r : request) (w : world) (md : json)
  (img : image) (p : string) (sg : Sig) :
  add_inputs r = Return (md, img, p) ->
  generate_signature img = Some sg ->
  fst (add_handler r w) = Return (ok "add" []).
Proof. intros Hin Hsg. now rewrite add_handler_run, Hin, Hsg. Qed.

(** C3, as the code has it. An add that uploads the image and names no
    path (the [filepath] field is missing or empty) raises before any call
    to the index and leaves the index and the journal as they were. The
    exception is a [ValueError] (the one about [filepath] when the metadata
    parses), and as it is no HTTP exception the caller is answered by the
    handler for status 500, which is not a client error. *)
Theorem add_raw_without_path (r : request) (w : world)
  (data : list Byte.byte) :
  lookup "url" (req_form r) = None ->
  lookup "image" (req_files r) = Some data ->
  lookup "filepath" (req_form r) = None
  \/ lookup "filepath" (req_form r) = Some ""%string ->
  exists e : exn,
    add_handler r w = (Raise e, w)
    /\ is_ValueError e = true
    /\ (forall md, metadata_of r = Return md ->
                   e = ValueError filepath_required)
    /\ respond (Raise e) = server_error e
    /\ snd (respond (Raise e)) = 500%Z
    /\ client_error (respond (Raise e)) = false.
Proof.
  intros Hurl Himg Hfp. rewrite add_handler_run. unfold add_inputs, get_image.
  rewrite Hurl, Himg.
  assert (Hp : path_of (lookup "filepath" (req_form r)) (ImgBytes data)
               = Raise (ValueError filepath_required))
    by (destruct Hfp as [-> | ->]; reflexivity).
  rewrite Hp. unfold metadata_of.
  destruct (json_loads _) as [md|]; simpl.
  - exists (ValueError filepath_required). repeat split; auto.
  - exists (JSONDecodeError "metadata"). repeat split; auto.
    intros md H. discriminate H.
Qed.

(** ** Path uniqueness *)

Lemma below_max (l : list nat) (i : nat) :
  In i l -> (i <= fold_right Nat.max 0 l)%nat.
Proof.
  induction l as [|j l IH]; simpl; intros Hi; [easy|].
  destruct Hi as [->|Hi]; [lia|]. specialize (IH Hi). lia.
Qed.

Lemma new_id_fresh (ds : list doc) : ~ In (new_id ds) (map _id ds).
Proof. unfold new_id. intros H. apply below_max in H. lia. Qed.

(** After insert-then-retire the path resolves to the new record alone. *)
Lemma add_leaves_one (ds : list doc) (p : string) (sg : Sig) (md : json) :
  filter (has_path p)
    (filter (fun d => negb (retired (map _id (filter (has_path p) ds)) d))
       (ds ++ [new_doc ds p sg md]))
  = [new_doc ds p sg md].
Proof.
  rewrite !filter_app, retire_path_clears. simpl.
  assert (K : retired (map _id (filter (has_path p) ds))
                (new_doc ds p sg md) = false).
  { apply not_true_is_false. rewrite retired_in. simpl. intros H.
    apply (new_id_fresh ds). apply in_map_iff in H as [d [E Hd]].
    apply filter_In in Hd as [Hd _]. apply in_map_iff. eauto. }
  rewrite K. simpl. unfold has_path. simpl. now rewrite String.eqb_refl.
Qed.

Lemma run_adds_last (rs : list request) (r : request) (w w' : world) :
  run_adds (rs ++ [r]) w = (Return tt, w') ->
  exists w1 e, run_adds rs w = (Return tt, w1)
               /\ add_handler r w1 = (Return e, w').
Proof.
  revert w. induction rs as [|r0 rs IH]; intros w; simpl; unfold bind.
  - destruct (add_handler r w) as [[e|e] w0] eqn:E; [|discriminate].
    unfold ret. intros H. injection H as <-. now exists w, e.
  - destruct (add_handler r0 w) as [[e|e] w0]; [|discriminate].
    apply IH.
Qed.

(** C1. After a run of add requests served one after the other, all
    successful, the last of them for path [p], the index holds exactly one
    record with path [p]; its signature is that of the image of the last
    request and its metadata are those of the last request; and the lookup
    by path answers with the id of that record alone. *)
Theorem path_uniqueness (rs : list request) (r : request) (md : json)
  (img : image) (p : string) (w w' : world) :
  add_inputs r = Return (md, img, p) ->
  run_adds (rs ++ [r]) w = (Return tt, w') ->
  exists (d : doc) (sg : Sig),
    filter (has_path p) (docs w') = [d]
    /\ generate_signature img = Some sg
    /\ path d = p /\ signature d = sg /\ metadata d = md
    /\ fst (ids_with_path p w') = Return [_id d].
Proof.
  intros Hin Hrun. apply run_adds_last in Hrun as [w1 [e [_ Hadd]]].
  rewrite add_handler_run, Hin in Hadd. simpl in Hadd.
  destruct (generate_signature img) as [sg|]; [|discriminate].
  injection Hadd as _ <-.
  exists (new_doc (docs w1) p sg md), sg.
  rewrite ids_with_path_run. simpl. rewrite add_leaves_one.
  repeat split; reflexivity.
Qed.

(** ** Search: the cutoff *)

Lemma length_insert_hit (h : hit) (l : list hit) :
  List.length (insert_hit h l) = S (List.length l).
Proof.
  induction l as [|h' l IH]; simpl; [reflexivity|].
  destruct (Qle_bool (hit_dist h) (hit_dist h')); simpl; congruence.
Qed.

Lemma length_sort_hits (l : list hit) :
  List.length (sort_hits l) = List.length l.
Proof.
  induction l as [|h l IH]; simpl; [reflexivity|].
  now rewrite length_insert_hit, IH.
Qed.

Lemma filter_length_le {A : Type} (f g : A -> bool) (l : list A) :
  (forall x, f x = true -> g x = true) ->
  (List.length (filter f l) <= List.length (filter g l))%nat.
Proof.
  intros Hfg. induction l as [|x l IH]; simpl; [lia|].
  destruct (f x) eqn:F.
  - rewrite (Hfg x F). simpl. lia.
  - destruct (g x); simpl; lia.
Qed.

Lemma dist_from_percent_antitone (p1 p2 : Q) :
  p1 <= p2 -> dist_from_percent p2 <= dist_from_percent p1.
Proof.
  intros H. unfold dist_from_percent. rewrite !percent_hundredths. lra.
Qed.

Lemma within_widens (c1 c2 d : Q) :
  c2 <= c1 -> within c2 d = true -> within c1 d = true.
Proof.
  unfold within. intros Hc. destruct cutoff_inclusive.
  - rewrite !Qle_bool_iff. lra.
  - rewrite !negb_true_iff. intros H.
    apply not_true_is_false. rewrite Qle_bool_iff. intros K.
    apply not_true_iff_false in H. apply H. apply Qle_bool_iff. lra.
Qed.

Lemma search_handler_run (cfg : config) (r : request) (w : world)
  (img : image) (m : Q) :
  get_image "url" "image" r = Return img ->
  min_score_of cfg r = Return m ->
  fst (search_handler cfg r w)
  = match generate_signature img with
    | None => Raise ImageError
    | Some sg =>
        match (if String.eqb (ao_field cfg r) "true"
               then expect (orientation_signatures img) ImageError
               else Return []) with
        | Raise e => Raise e
        | Return others =>
            Return (ok "search"
                      (map match_entry
                         (sort_hits
                            (filter (fun h => within (dist_from_percent m)
                                                (hit_dist h))
                               (map (fun d => (d, best_dist sg others d))
                                  (docs w))))))
        end
    end.
Proof.
  intros Himg Hm. unfold search_handler, bind, lift.
  rewrite Himg, Hm. unfold ses_search_image, bind, lift, journal.
  destruct (generate_signature img); simpl; [|reflexivity].
  destruct (String.eqb (ao_field cfg r) "true"); simpl; [|reflexivity].
  destruct (orientation_signatures img); reflexivity.
Qed.

(** C7. For the same probe image, the same orientation setting and the
    same index, a search with the larger minimum score that succeeds at the
    smaller one succeeds too, and answers with no more results. *)
Theorem search_cutoff_monotone (cfg : config) (r1 r2 : request) (w : world)
  (img : image) (p1 p2 : Q) (e1 : envelope) :
  get_image "url" "image" r1 = Return img ->
  get_image "url" "image" r2 = Return img ->
  ao_field cfg r1 = ao_field cfg r2 ->
  min_score_of cfg r1 = Return p1 ->
  min_score_of cfg r2 = Return p2 ->
  p1 <= p2 ->
  fst (search_handler cfg r1 w) = Return e1 ->
  exists e2 : envelope,
    fst (search_handler cfg r2 w) = Return e2
    /\ (List.length (result e2) <= List.length (result e1))%nat.
Proof.
  intros Hi1 Hi2 Hao Hm1 Hm2 Hle.
  rewrite (search_handler_run cfg r1 w img p1),
          (search_handler_run cfg r2 w img p2) by assumption.
  rewrite <- Hao.
  destruct (generate_signature img) as [sg|]; [|discriminate].
  destruct (if String.eqb (ao_field cfg r1) "true"
            then expect (orientation_signatures img) ImageError
            else Return []) as [others|e]; [|discriminate].
  intros H. injection H as <-. eexists. split; [reflexivity|].
  simpl. rewrite !length_map, !length_sort_hits.
  apply filter_length_le. intros h.
  apply within_widens. now apply dist_from_percent_antitone.
Qed.

End Properties.

(** * Further properties of the routes and helpers *)

Section Routes.

Context {C : Collaborators}.

Local Open Scope Q_scope.

(** ** The login decorator *)

(** X1. With a non-empty token configured, a request whose [token] argument
    is missing or different is answered with the empty object and status
    403, whatever the view; the view is not run and the index is left as it
    was. *)
Theorem login_required_denies (cfg : config) (f : request -> M response)
  (r : request) (w : world) (t : string) :
  auth_token cfg = Some t ->
  t <> ""%string ->
  lookup "token" (req_args r) <> Some t ->
  login_required cfg f r w = (Return (EmptyObject, 403%Z), w).
Proof.
  intros Ht Hne Hno. unfold login_required. rewrite Ht.
  destruct t as [|c t]; [now destruct Hne|].
  destruct (lookup "token" (req_args r)) as [t'|]; [|reflexivity].
  destruct (String.eqb t' (String c t)) eqn:E; [|reflexivity].
  apply String.eqb_eq in E. subst. now destruct Hno.
Qed.

(** X2. The decorator runs the view unchanged when no token is configured,
    when the configured token is the empty string, and when the [token]
    argument of the request equals the configured token. *)
Theorem login_required_passes (cfg : config) (f : request -> M response)
  (r : request) :
  auth_token cfg = None
  \/ auth_token cfg = Some ""%string
  \/ (exists t, auth_token cfg = Some t
                /\ lookup "token" (req_args r) = Some t) ->
  login_required cfg f r = f r.
Proof.
  unfold login_required. intros [H|[H|[t [H K]]]]; rewrite H; try reflexivity.
  destruct t as [|c t]; [reflexivity|].
  rewrite K, String.eqb_refl. reflexivity.
Qed.

(** ** Reading the request *)

(** X3. [get_image] prefers the URL field: when the form has it the image
    is that URL, whatever was uploaded; otherwise it is the uploaded file;
    with neither it raises the bad-request key error for the file field.
    The bytestream flag of the image it returns is set exactly when the
    form has no URL field. *)
Theorem get_image_cases (url_field file_field : string) (r : request) :
  (forall u, lookup url_field (req_form r) = Some u ->
             get_image url_field file_field r = Return (ImgUrl u))
  /\ (forall data, lookup url_field (req_form r) = None ->
                   lookup file_field (req_files r) = Some data ->
                   get_image url_field file_field r = Return (ImgBytes data))
  /\ (lookup url_field (req_form r) = None ->
      lookup file_field (req_files r) = None ->
      get_image url_field file_field r = Raise (BadRequestKeyError file_field))
  /\ (forall img, get_image url_field file_field r = Return img ->
                  (bytestream img = true
                   <-> lookup url_field (req_form r) = None)).
Proof.
  unfold get_image. repeat split.
  - intros u ->. reflexivity.
  - intros data -> ->. reflexivity.
  - intros -> ->. reflexivity.
  - destruct (lookup url_field (req_form r)) as [u|]; [|reflexivity].
    injection H as <-. discriminate.
  - destruct (lookup url_field (req_form r)) as [u|]; [discriminate|].
    destruct (lookup file_field (req_files r)); [|discriminate].
    injection H as <-. reflexivity.
Qed.

(** X4. A delete whose form has no [filepath] field raises the bad-request
    key error before any call to the index; the caller is answered by the
    handler for status 400, a client error. *)
Theorem delete_without_filepath (r : request) (w : world) :
  lookup "filepath" (req_form r) = None ->
  delete_handler r w = (Raise (BadRequestKeyError "filepath"), w)
  /\ respond (fst (delete_handler r w)) = bad_request
  /\ client_error (respond (fst (delete_handler r w))) = true.
Proof.
  intros H. unfold delete_handler, bind, lift. rewrite H. auto.
Qed.

(** X5. A successful add files the image under the [filepath] field when
    that is a non-empty string, and under the URL of the image when the
    field is missing or empty: that path is the one given to the insert,
    and the one record the index then has under it is the new record. *)
Theorem add_path_choice (r : request) (w : world) (e : envelope) :
  fst (add_handler r w) = Return e ->
  exists (p : string) (img : image) (md : json) (sg : Sig),
    calls (snd (add_handler r w))
    = (calls w ++ [EsSearchPath p; SesAddImage p img (bytestream img) md]
         ++ map EsDelete (map _id (filter (has_path p) (docs w))))%list
    /\ get_image "url" "image" r = Return img
    /\ generate_signature img = Some sg
    /\ filter (has_path p) (docs (snd (add_handler r w)))
       = [new_doc (docs w) p sg md]
    /\ ((lookup "filepath" (req_form r) = Some p /\ p <> ""%string)
        \/ ((lookup "filepath" (req_form r) = None
             \/ lookup "filepath" (req_form r) = Some ""%string)
            /\ img = ImgUrl p /\ lookup "url" (req_form r) = Some p)).
Proof.
  rewrite add_handler_run. unfold add_inputs.
  destruct (metadata_of r) as [md|]; [|discriminate].
  destruct (get_image "url" "image" r) as [img|] eqn:G; [|discriminate].
  assert (U : forall u, img = ImgUrl u -> lookup "url" (req_form r) = Some u).
  { intros u ->. unfold get_image in G.
    destruct (lookup "url" (req_form r)); [congruence|].
    destruct (lookup "image" (req_files r)); discriminate. }
  assert (K : forall p,
             path_of (lookup "filepath" (req_form r)) img = Return p ->
             (lookup "filepath" (req_form r) = Some p /\ p <> ""%string)
             \/ ((lookup "filepath" (req_form r) = None
                  \/ lookup "filepath" (req_form r) = Some ""%string)
                 /\ img = ImgUrl p /\ lookup "url" (req_form r) = Some p)).
  { intros p. destruct (lookup "filepath" (req_form r)) as [[|c s0]|]; simpl.
    - destruct img as [u|]; [|discriminate].
      intros H. injection H as <-. right. auto.
    - intros H. injection H as <-. left. split; [reflexivity|discriminate].
    - destruct img as [u|]; [|discriminate].
      intros H. injection H as <-. right. auto. }
  destruct (path_of (lookup "filepath" (req_form r)) img) as [p|];
    [|discriminate].
  simpl. destruct (generate_signature img) as [sg|] eqn:Gs; [|discriminate].
  simpl. intros _. exists p, img, md, sg.
  rewrite add_leaves_one.
  split; [reflexivity|]. split; [reflexivity|]. split; [exact Gs|].
  split; [reflexivity|]. now apply K.
Qed.


(** ** Records of other paths *)

Lemma same_id_same_doc (ds : list doc) (a b : doc) :
  NoDup (map _id ds) -> In a ds -> In b ds -> _id a = _id b -> a = b.
Proof.
  induction ds as [|d ds IH]; simpl; [easy|].
  intros N Ha Hb E. apply NoDup_cons_iff in N as [Hd N].
  destruct Ha as [->|Ha], Hb as [->|Hb]; auto.
  - destruct Hd. rewrite E. now apply in_map.
  - destruct Hd. rewrite <- E. now apply in_map.
Qed.

Lemma NoDup_ids_filter (f : doc -> bool) (ds : list doc) :
  NoDup (map _id ds) -> NoDup (map _id (filter f ds)).
Proof.
  induction ds as [|d ds IH]; simpl; [auto|].
  intros N. apply NoDup_cons_iff in N as [Hd N].
  destruct (f d); simpl; auto.
  apply NoDup_cons; auto. intros H. apply Hd.
  apply in_map_iff in H as [d' [E H]]. apply filter_In in H as [H _].
  apply in_map_iff. eauto.
Qed.

(** With distinct ids, retiring the ids found for a path removes the
    records of that path and no other. *)
Lemma retire_by_path (p : string) (ds : list doc) :
  NoDup (map _id ds) ->
  filter (fun d => negb (retired (map _id (filter (has_path p) ds)) d)) ds
  = filter (fun d => negb (has_path p d)) ds.
Proof.
  intros N. apply filter_ext_in. intros d Hin. f_equal.
  apply eq_true_iff_eq. rewrite retired_in, in_map_iff. split.
  - intros [d' [E H]]. apply filter_In in H as [H Hp].
    now rewrite <- (same_id_same_doc ds d' d N H Hin E).
  - intros Hp. exists d. split; [reflexivity|]. apply filter_In. auto.
Qed.

Lemma new_doc_not_retired (f : doc -> bool) (ds : list doc) (p : string)
  (sg : Sig) (md : json) :
  retired (map _id (filter f ds)) (new_doc ds p sg md) = false.
Proof.
  apply not_true_is_false. rewrite retired_in. simpl. intros H.
  apply (new_id_fresh ds). apply in_map_iff in H as [d [E Hd]].
  apply filter_In in Hd as [Hd _]. apply in_map_iff. eauto.
Qed.

Lemma add_handler_docs (r : request) (w : world) (md : json) (img : image)
  (p : string) (sg : Sig) :
  NoDup (map _id (docs w)) ->
  add_inputs r = Return (md, img, p) ->
  generate_signature img = Some sg ->
  docs (snd (add_handler r w))
  = (filter (fun d => negb (has_path p d)) (docs w)
       ++ [new_doc (docs w) p sg md])%list.
Proof.
  intros N Hin Hsg. rewrite add_handler_run, Hin. simpl. rewrite Hsg. simpl.
  rewrite filter_app, retire_by_path by assumption. simpl.
  now rewrite new_doc_not_retired.
Qed.

Lemma filter_lengths {A : Type} (f : A -> bool) (l : list A) :
  (List.length (filter (fun x => negb (f x)) l)
   + List.length (filter f l) = List.length l)%nat.
Proof.
  induction l as [|x l IH]; simpl; [reflexivity|].
  destruct (f x); simpl; lia.
Qed.

(** X7. On an index whose ids are distinct, a successful add for a path
    replaces the records of that path by the new record, placed last, and
    leaves the records of every other path as they were and in their order;
    the ids stay distinct. *)
Theorem add_keeps_other_paths (r : request) (w : world) (md : json)
  (img : image) (p : string) (sg : Sig) :
  NoDup (map _id (docs w)) ->
  add_inputs r = Return (md, img, p) ->
  generate_signature img = Some sg ->
  docs (snd (add_handler r w))
  = (filter (fun d => negb (has_path p d)) (docs w)
       ++ [new_doc (docs w) p sg md])%list
  /\ (forall q, q <> p ->
                filter (has_path q) (docs (snd (add_handler r w)))
                = filter (has_path q) (docs w))
  /\ NoDup (map _id (docs (snd (add_handler r w)))).
Proof.
  intros N Hin Hsg.
  rewrite (add_handler_docs r w md img p sg) by assumption.
  split; [reflexivity|]. split.
  - intros q Hq. rewrite filter_app, filter_twice. simpl.
    replace (has_path q (new_doc (docs w) p sg md)) with false.
    + rewrite app_nil_r. apply filter_ext. intros d.
      destruct (has_path q d) eqn:Q; [|apply andb_false_r].
      rewrite andb_true_r. apply negb_true_iff, not_true_is_false.
      rewrite has_path_iff in *. congruence.
    + symmetry. apply not_true_is_false. rewrite has_path_iff. simpl.
      congruence.
  - rewrite map_app. simpl. apply NoDup_app.
    + now apply NoDup_ids_filter.
    + apply NoDup_cons; [intros []|apply NoDup_nil].
    + intros i Hi [<-|[]]. apply (new_id_fresh (docs w)).
      apply in_map_iff in Hi as [d [E Hd]]. apply filter_In in Hd as [Hd _].
      apply in_map_iff. eauto.
Qed.

(** X8. On an index whose ids are distinct, the count after a successful
    add for a path is the count before, plus one, minus the number of
    records the path had: one more for a new path, the same when the path
    had one record. *)
Theorem count_after_add (r rc : request) (w : world) (md : json)
  (img : image) (p : string) (sg : Sig) :
  NoDup (map _id (docs w)) ->
  add_inputs r = Return (md, img, p) ->
  generate_signature img = Some sg ->
  exists n n' : Z,
    fst (count_handler rc w) = Return (ok "count" [JNum (inject_Z n)])
    /\ fst (count_handler rc (snd (add_handler r w)))
       = Return (ok "count" [JNum (inject_Z n')])
    /\ (n' = n + 1
             - Z.of_nat (List.length (filter (has_path p) (docs w))))%Z.
Proof.
  intros N Hin Hsg.
  exists (Z.of_nat (List.length (docs w))),
         (Z.of_nat (List.length (docs (snd (add_handler r w))))).
  split; [reflexivity|]. split; [reflexivity|].
  rewrite (add_handler_docs r w md img p sg) by assumption.
  rewrite length_app. simpl.
  pose proof (filter_lengths (has_path p) (docs w)). lia.
Qed.

(** X9. On an index whose ids are distinct, a delete removes the records of
    the given path and leaves all others as they were and in their order;
    the ids stay distinct. *)
Theorem delete_keeps_other_paths (r : request) (p : string) (w : world) :
  NoDup (map _id (docs w)) ->
  lookup "filepath" (req_form r) = Some p ->
  docs (snd (delete_handler r w))
  = filter (fun d => negb (has_path p d)) (docs w)
  /\ NoDup (map _id (docs (snd (delete_handler r w)))).
Proof.
  intros N H. rewrite (delete_handler_run r p w H). simpl.
  rewrite retire_by_path by assumption.
  split; [reflexivity|now apply NoDup_ids_filter].
Qed.

(** X19. [delete_ids] never raises; afterwards the index holds exactly the
    earlier records whose id was not listed, and one delete call was made
    per listed id, in the order of the list. *)
Theorem delete_ids_exact (ids : list nat) (w : world) :
  fst (delete_ids ids w) = Return tt
  /\ (forall d, In d (docs (snd (delete_ids ids w)))
                <-> In d (docs w) /\ ~ In (_id d) ids)
  /\ calls (snd (delete_ids ids w)) = (calls w ++ map EsDelete ids)%list.
Proof.
  rewrite delete_ids_run. simpl. split; [reflexivity|].
  split; [|reflexivity].
  intros d. rewrite filter_In, negb_true_iff, <- retired_in.
  split; intros [H K]; split; auto.
  - now rewrite K.
  - now apply not_true_is_false.
Qed.

(** ** Routes that only read *)

(** X10. The search, list and count routes never change the records of the
    index; the compare and ping routes make no call to the index at all. *)
Theorem read_only_routes (cfg : config) (r : request) (w : world) :
  docs (snd (search_handler cfg r w)) = docs w
  /\ docs (snd (list_handler r w)) = docs w
  /\ docs (snd (count_handler r w)) = docs w
  /\ snd (compare_handler r w) = w
  /\ ping_handler r w = (Return (ok "ping" []), w).
Proof.
  repeat split.
  - unfold search_handler, bind, lift.
    destruct (get_image "url" "image" r) as [img|]; [|reflexivity].
    destruct (min_score_of cfg r) as [m|]; [|reflexivity].
    unfold ses_search_image, bind, lift, journal. simpl.
    destruct (generate_signature img); simpl; [|reflexivity].
    destruct (String.eqb (ao_field cfg r) "true"); simpl; [|reflexivity].
    destruct (orientation_signatures img); reflexivity.
  - unfold list_handler, bind, lift.
    destruct (int_field (list_fields r) "offset" 0%Z); [|reflexivity].
    destruct (int_field (list_fields r) "limit" 20%Z); reflexivity.
  - unfold compare_handler, bind, lift.
    destruct (get_image "url1" "image1" r) as [a|]; [|reflexivity].
    destruct (get_image "url2" "image2" r) as [b|]; [|reflexivity].
    destruct (generate_signature a); simpl; [|reflexivity].
    destruct (generate_signature b); reflexivity.
Qed.

(** ** Comparing *)


(** ** Searching *)

Lemma In_insert_hit (x h : hit) (l : list hit) :
  In x (insert_hit h l) <-> x = h \/ In x l.
Proof.
  induction l as [|h' l IH]; simpl; [intuition auto|].
  destruct (Qle_bool (hit_dist h) (hit_dist h')); simpl; [intuition auto|].
  rewrite IH. intuition auto.
Qed.

Lemma In_sort_hits (x : hit) (l : list hit) :
  In x (sort_hits l) <-> In x l.
Proof.
  induction l as [|h l IH]; simpl; [reflexivity|].
  rewrite In_insert_hit, IH. intuition auto.
Qed.

(** X13. A search whose image cannot be read from the request, or whose
    [min_score] field is not a number, raises before any call to the index
    and leaves the index and the journal as they were. *)
Theorem search_rejects_unread (cfg : config) (r : request) (w : world)
  (e : exn) :
  get_image "url" "image" r = Raise e
  \/ (exists img, get_image "url" "image" r = Return img
                  /\ min_score_of cfg r = Raise e) ->
  search_handler cfg r w = (Raise e, w)
  /\ (e = BadRequestKeyError "image" \/ is_ValueError e = true).
Proof.
  unfold search_handler, bind, lift. intros [H|[img [H K]]].
  - rewrite H. split; [reflexivity|]. left. unfold get_image in H.
    destruct (lookup "url" (req_form r)); [discriminate|].
    destruct (lookup "image" (req_files r)); [discriminate|]. congruence.
  - rewrite H, K. split; [reflexivity|]. right. unfold min_score_of in K.
    destruct (lookup "min_score" (req_form r)); [|discriminate].
    destruct (py_float s); [discriminate|]. simpl in K.
    injection K as <-. reflexivity.
Qed.

(** ** Listing *)

Lemma list_handler_run (r : request) (w : world) (o l : Z) :
  int_field (list_fields r) "offset" 0%Z = Return o ->
  int_field (list_fields r) "limit" 20%Z = Return l ->
  list_handler r w
  = (Return (ok "list"
               (map JStr
                  (map path (firstn (Z.to_nat (Z.max l 0))
                               (skipn (Z.to_nat (Z.max o 0)) (docs w)))))),
     {| docs := docs w;
        calls := (calls w ++ [EsSearchPage (Z.max o 0) (Z.max l 0)])%list |}).
Proof.
  intros Ho Hl. unfold list_handler, bind, lift. now rewrite Ho, Hl.
Qed.

Lemma In_window {A : Type} (x : A) (n k : nat) (l : list A) :
  In x (firstn n (skipn k l)) -> In x l.
Proof.
  intros H. rewrite <- (firstn_skipn k l). apply in_or_app. right.
  rewrite <- (firstn_skipn n (skipn k l)). apply in_or_app. now left.
Qed.

(** X14. The list route reads its offset and limit from the query string
    of a GET and from the form of any other request: two GET requests with
    the same query string, or two other requests with the same form, are
    served alike. *)
Theorem list_reads_by_method (r r' : request) (w : world) :
  (req_method r = GET /\ req_method r' = GET /\ req_args r = req_args r')
  \/ (req_method r <> GET /\ req_method r' <> GET
      /\ req_form r = req_form r') ->
  list_handler r w = list_handler r' w.
Proof.
  intros H.
  assert (E : list_fields r = list_fields r').
  { unfold list_fields. destruct H as [[-> [-> E]]|[N [N' E]]]; [exact E|].
    destruct (req_method r), (req_method r'); congruence. }
  unfold list_handler. now rewrite E.
Qed.

(** X15. A list request whose offset or limit is not an integer raises a
    [ValueError] before any call to the index. *)
Theorem list_rejects_bad_numbers (r : request) (w : world) (e : exn) :
  int_field (list_fields r) "offset" 0%Z = Raise e
  \/ (exists o, int_field (list_fields r) "offset" 0%Z = Return o
                /\ int_field (list_fields r) "limit" 20%Z = Raise e) ->
  list_handler r w = (Raise e, w) /\ is_ValueError e = true.
Proof.
  assert (V : forall key dflt, int_field (list_fields r) key dflt = Raise e ->
                               is_ValueError e = true).
  { intros key dflt. unfold int_field.
    destruct (lookup key (list_fields r)); [|discriminate].
    destruct (py_int s); [discriminate|]. simpl. intros H.
    injection H as <-. reflexivity. }
  unfold list_handler, bind, lift. intros [H|[o [H K]]].
  - rewrite H. split; [reflexivity|]. eapply V, H.
  - rewrite H, K. split; [reflexivity|]. eapply V, K.
Qed.

(** X16. A list request with offset [o] and limit [l] is answered with at
    most [max l 0] paths, each the path of a record of the index, and with
    none when the limit is zero or negative or when the offset is at or
    past the end of the index. *)
Theorem list_page_bounded (r : request) (w : world) (o l : Z) :
  int_field (list_fields r) "offset" 0%Z = Return o ->
  int_field (list_fields r) "limit" 20%Z = Return l ->
  exists paths : list string,
    fst (list_handler r w) = Return (ok "list" (map JStr paths))
    /\ (Z.of_nat (List.length paths) <= Z.max l 0)%Z
    /\ ((l <= 0)%Z \/ (Z.of_nat (List.length (docs w)) <= o)%Z ->
        paths = [])
    /\ (forall p, In p paths -> exists d, In d (docs w) /\ path d = p).
Proof.
  intros Ho Hl. rewrite (list_handler_run r w o l Ho Hl). simpl.
  eexists. split; [reflexivity|].
  assert (L : List.length
                (map path (firstn (Z.to_nat (Z.max l 0))
                             (skipn (Z.to_nat (Z.max o 0)) (docs w))))
              = Nat.min (Z.to_nat (Z.max l 0))
                  (List.length (docs w) - Z.to_nat (Z.max o 0)))
    by now rewrite length_map, length_firstn, length_skipn.
  split; [|split].
  - rewrite L. lia.
  - intros H. apply length_zero_iff_nil. rewrite L. lia.
  - intros p Hp. apply in_map_iff in Hp as [d [E Hd]].
    exists d. split; [|assumption]. eapply In_window, Hd.
Qed.

(** X17. Once a path has been deleted, no list request shows it. *)
Theorem deleted_path_not_listed (r rl : request) (p : string) (w : world)
  (e : envelope) :
  lookup "filepath" (req_form r) = Some p ->
  fst (list_handler rl (snd (delete_handler r w))) = Return e ->
  ~ In (JStr p) (result e).
Proof.
  intros H. rewrite (delete_handler_run r p w H). simpl.
  unfold list_handler, bind, lift.
  destruct (int_field (list_fields rl) "offset" 0%Z) as [o|]; [|discriminate].
  destruct (int_field (list_fields rl) "limit" 20%Z) as [l|]; [|discriminate].
  simpl. intros E. injection E as <-. simpl. intros Hin.
  apply in_map_iff in Hin as [q [Eq Hq]]. injection Eq as ->.
  apply in_map_iff in Hq as [d [Ed Hd]]. apply In_window in Hd.
  assert (K : In d (filter (has_path p)
                (filter (fun d => negb (retired
                   (map _id (filter (has_path p) (docs w))) d)) (docs w)))).
  { apply filter_In. rewrite has_path_iff. auto. }
  now rewrite retire_path_clears in K.
Qed.

Lemma count_occ_paths (p : string) (ds : list doc) :
  count_occ string_dec (map path ds) p
  = List.length (filter (has_path p) ds).
Proof.
  induction ds as [|d ds IH]; simpl; [reflexivity|].
  unfold has_path at 1.
  destruct (string_dec (path d) p) as [->|N].
  - rewrite String.eqb_refl. simpl. now rewrite IH.
  - apply String.eqb_neq in N. now rewrite N.
Qed.

(** X18. After a successful add for a path, a page that spans the whole
    index lists that path exactly once. *)
Theorem added_path_listed_once (r : request) (w : world) (md : json)
  (img : image) (p : string) (sg : Sig) :
  add_inputs r = Return (md, img, p) ->
  generate_signature img = Some sg ->
  let w' := snd (add_handler r w) in
  exists paths : list string,
    fst (paths_at_location 0%Z (Z.of_nat (List.length (docs w'))) w')
    = Return paths
    /\ List.length paths = List.length (docs w')
    /\ count_occ string_dec paths p = 1%nat.
Proof.
  intros Hin Hsg w'. eexists. split; [reflexivity|].
  simpl. rewrite Nat2Z.id, firstn_all, length_map.
  split; [reflexivity|].
  rewrite count_occ_paths. subst w'.
  rewrite add_handler_run, Hin. simpl. rewrite Hsg. simpl.
  now rewrite add_leaves_one.
Qed.

(** ** Scores and counts across routes *)

(** X20. When the distances of the signature engine lie between 0 and 1, a
    successful compare answers with a single entry whose score lies between
    0 and 100. *)
Theorem compare_score_range (r : request) (w : world) (e : envelope) :
  (forall s t : Sig, 0 <= normalized_distance s t <= 1) ->
  fst (compare_handler r w) = Return e ->
  exists q, result e = [JObj [("score", JNum q)]] /\ 0 <= q <= 100.
Proof.
  intros Hd. unfold compare_handler, bind, lift.
  destruct (get_image "url1" "image1" r) as [a|]; [|discriminate].
  destruct (get_image "url2" "image2" r) as [b|]; [|discriminate].
  destruct (generate_signature a) as [sa|]; [|discriminate].
  destruct (generate_signature b) as [sb|]; [|discriminate].
  simpl. intros H. injection H as <-. simpl.
  eexists. split; [reflexivity|]. apply dist_to_percent_range, Hd.
Qed.

(** X21. On an index whose ids are distinct, the count after a delete is
    the count before minus the number of records the path had. *)
Theorem count_after_delete (r rc : request) (p : string) (w : world) :
  NoDup (map _id (docs w)) ->
  lookup "filepath" (req_form r) = Some p ->
  exists n n' : Z,
    fst (count_handler rc w) = Return (ok "count" [JNum (inject_Z n)])
    /\ fst (count_handler rc (snd (delete_handler r w)))
       = Return (ok "count" [JNum (inject_Z n')])
    /\ (n' = n - Z.of_nat (List.length (filter (has_path p) (docs w))))%Z.
Proof.
  intros N H.
  exists (Z.of_nat (List.length (docs w))),
         (Z.of_nat (List.length (docs (snd (delete_handler r w))))).
  split; [reflexivity|]. split; [reflexivity|].
  rewrite (delete_handler_run r p w H). simpl.
  rewrite retire_by_path by assumption.
  pose proof (filter_lengths (has_path p) (docs w)). lia.
Qed.

Lemma Qmin_b_le (a b : Q) : Qmin_b a b <= a /\ Qmin_b a b <= b.
Proof.
  unfold Qmin_b. destruct (Qle_bool a b) eqn:E.
  - apply Qle_bool_iff in E. split; lra.
  - assert (~ a <= b) by (intros K; apply Qle_bool_iff in K; congruence).
    split; lra.
Qed.

Lemma Qmin_b_ge (c a b : Q) : c <= a -> c <= b -> c <= Qmin_b a b.
Proof. unfold Qmin_b. now destruct (Qle_bool a b). Qed.

Lemma fold_min_le (l : list Q) (a : Q) : fold_left Qmin_b l a <= a.
Proof.
  revert a. induction l as [|b l IH]; intros a; simpl; [lra|].
  specialize (IH (Qmin_b a b)). pose proof (Qmin_b_le a b). lra.
Qed.

Lemma fold_min_ge (c : Q) (l : list Q) (a : Q) :
  (forall x, In x l -> c <= x) -> c <= a -> c <= fold_left Qmin_b l a.
Proof.
  revert a. induction l as [|b l IH]; intros a Hl Ha; simpl; [assumption|].
  apply IH.
  - intros x Hx. apply Hl. now right.
  - apply Qmin_b_ge; [assumption|]. apply Hl. now left.
Qed.

Lemma within_intro (c d : Q) : d < c -> within c d = true.
Proof.
  unfold within. intros H. destruct cutoff_inclusive.
  - apply Qle_bool_iff. lra.
  - apply negb_true_iff, not_true_is_false. rewrite Qle_bool_iff. lra.
Qed.

(** X22. When the distances of the signature engine are non-negative and
    the distance of a signature to itself is 0, a search with the image
    that was just added, at a minimum score below 100, finds the added
    record: the result has an entry with its path, its metadata and a score
    equal to 100. *)
Theorem add_search_round_trip (cfg : config) (r rs : request) (w : world)
  (md : json) (img : image) (p : string) (sg : Sig) (m : Q)
  (e : envelope) :
  (forall s t : Sig, 0 <= normalized_distance s t) ->
  (forall s : Sig, normalized_distance s s == 0) ->
  add_inputs r = Return (md, img, p) ->
  generate_signature img = Some sg ->
  get_image "url" "image" rs = Return img ->
  min_score_of cfg rs = Return m ->
  m < 100 ->
  fst (search_handler cfg rs (snd (add_handler r w))) = Return e ->
  exists q,
    In (JObj [("score", JNum q); ("filepath", JStr p); ("metadata", md)])
      (result e)
    /\ q == 100.
Proof.
  intros Hpos Hrefl Hin Hsg Himg Hm Hlt.
  rewrite (search_handler_run cfg rs _ img m) by assumption. rewrite Hsg.
  destruct (if String.eqb (ao_field cfg rs) "true"
            then expect (orientation_signatures img) ImageError
            else Return []) as [others|]; [|discriminate].
  intros H. injection H as <-. simpl.
  set (nd := new_doc (docs w) p sg md).
  set (bd := best_dist sg others nd).
  assert (Hbd : bd == 0).
  { unfold bd, best_dist. simpl. apply Qle_antisym.
    - eapply Qle_trans; [apply fold_min_le|]. rewrite Hrefl. lra.
    - apply fold_min_ge; [|apply Hpos].
      intros x Hx. apply in_map_iff in Hx as [s' [<- _]]. apply Hpos. }
  exists (dist_to_percent bd). split.
  - apply (in_map match_entry _ (nd, bd)).
    apply In_sort_hits, filter_In. split.
    + apply (in_map (fun d => (d, best_dist sg others d))).
      rewrite add_handler_run, Hin. simpl. rewrite Hsg. simpl.
      apply filter_In. split.
      * apply in_or_app. right. now left.
      * fold nd. unfold nd. now rewrite new_doc_not_retired.
    + apply within_intro. simpl. unfold dist_from_percent.
      rewrite percent_hundredths, Hbd. lra.
  - unfold dist_to_percent. rewrite Hbd. reflexivity.
Qed.

End Routes.

(** * The properties at work on the small instance *)

Import Demo.

Local Open Scope Q_scope.

Lemma score_conversions_inverse_witness :
  (0 <= dist_to_percent (1 # 4) <= 100
   /\ dist_from_percent (dist_to_percent (1 # 4)) == 1 # 4)
  /\ (0 <= dist_from_percent 25 <= 1
      /\ dist_to_percent (dist_from_percent 25) == 25).
Proof.
  apply (score_conversions_inverse (1 # 4) 25); split; discriminate.
Defined.

Lemma search_cutoff_edges_witness :
  exists c : Q,
    calls (snd (search_handler cfg (search_min "100") stocked))
    = (calls stocked ++ [SesSearchImage c (ImgUrl "abcd") true false])%list
    /\ (100 == 100 -> c == 0)
    /\ (100 <= 0 -> 1 <= c).
Proof.
  apply (search_cutoff_edges cfg (search_min "100") stocked
           (ImgUrl "abcd") 100); reflexivity.
Defined.

Lemma search_orientation_flag_witness :
  exists ao : bool,
    calls (snd (search_handler cfg search_variant stocked))
    = (calls stocked
         ++ [SesSearchImage (dist_from_percent 100) (ImgUrl "abcd") ao
               false])%list
    /\ (forall s,
          lookup "all_orientations" (req_form search_variant) = Some s ->
          (ao = true <-> s = "true"%string))
    /\ (lookup "all_orientations" (req_form search_variant) = None ->
         (ao = true <-> all_orientations cfg = "true"%string))
    /\ (In (ao_field cfg search_variant) ["True"; "TRUE"; "1"]%string ->
         ao = false).
Proof.
  apply (search_orientation_flag cfg search_variant stocked
           (ImgUrl "abcd") 100); reflexivity.
Defined.

Lemma list_window_clamped_witness :
  exists offset limit : Z,
    list_handler list_page stocked
    = (Return (ok "list"
                 (map JStr (map path (firstn (Z.to_nat limit)
                                        (skipn (Z.to_nat offset)
                                           (docs stocked)))))),
       {| docs := docs stocked;
          calls := (calls stocked ++ [EsSearchPage offset limit])%list |})
    /\ offset = Z.max (-3) 0 /\ limit = Z.max 1000000 0
    /\ (0 <= offset)%Z /\ (0 <= limit)%Z
    /\ ((0 <= 1000000)%Z -> limit = 1000000%Z)
    /\ (lookup "offset" (list_fields list_page) = None -> (-3)%Z = 0%Z)
    /\ (lookup "limit" (list_fields list_page) = None -> 1000000%Z = 20%Z).
Proof.
  apply (list_window_clamped list_page stocked (-3) 1000000); reflexivity.
Defined.

Lemma ids_with_path_exact_witness :
  exists ids : list nat,
    ids_with_path "x.jpg" stocked
    = (Return ids,
       {| docs := docs stocked;
          calls := (calls stocked ++ [EsSearchPath "x.jpg"])%list |})
    /\ ids = map _id (filter (fun d => if string_dec (path d) "x.jpg"
                                       then true else false) (docs stocked))
    /\ (forall i, In i ids <->
                  exists d, In d (docs stocked)
                            /\ path d = "x.jpg"%string /\ _id d = i)
    /\ ((forall d, In d (docs stocked) -> path d <> "x.jpg"%string) ->
        ids = []).
Proof. apply (ids_with_path_exact "x.jpg" stocked). Defined.

Lemma delete_handler_idempotent_witness :
  let w1 := snd (delete_handler delete_x stocked) in
  let w2 := snd (delete_handler delete_x w1) in
  fst (delete_handler delete_x stocked) = Return (ok "delete" [])
  /\ fst (delete_handler delete_x w1) = Return (ok "delete" [])
  /\ (forall d, In d (docs w1) -> path d <> "x.jpg"%string)
  /\ docs w2 = docs w1
  /\ ((forall d, In d (docs stocked) -> path d <> "x.jpg"%string) ->
      docs w1 = docs stocked)
  /\ (forall ids w0, fst (delete_ids ids w0) = Return tt).
Proof.
  apply (delete_handler_idempotent delete_x "x.jpg" stocked). reflexivity.
Defined.

Lemma add_raw_without_path_witness :
  exists e : exn,
    add_handler raw_upload stocked = (Raise e, stocked)
    /\ is_ValueError e = true
    /\ (forall md, metadata_of raw_upload = Return md ->
                   e = ValueError filepath_required)
    /\ respond (Raise e) = server_error e
    /\ snd (respond (Raise e)) = 500%Z
    /\ client_error (respond (Raise e)) = false.
Proof.
  apply (add_raw_without_path raw_upload stocked [Byte.x00]);
    [reflexivity | reflexivity | left; reflexivity].
Defined.

(** The add of [raw_upload] is answered with status 500: it does not reach
    the caller as a client error. *)
Lemma add_raw_without_path_server_error :
  serve cfg add_handler raw_upload empty
  = (Return (server_error (ValueError filepath_required)), empty)
  /\ ~ (exists e : exn,
          add_handler raw_upload empty = (Raise e, empty)
          /\ is_ValueError e = true
          /\ client_error (respond (Raise e)) = true).
Proof.
  split; [reflexivity|].
  intros [e [H [_ K]]]. vm_compute in H. injection H as <-.
  vm_compute in K. discriminate K.
Qed.

Lemma path_uniqueness_witness :
  exists (d : doc) (sg : Sig),
    filter (has_path "x.jpg")
      (docs (snd (run_adds [add_url; add_upload] empty))) = [d]
    /\ generate_signature (ImgBytes [Byte.x00; Byte.x01]) = Some sg
    /\ path d = "x.jpg"%string /\ signature d = sg /\ metadata d = JObj []
    /\ fst (ids_with_path "x.jpg" (snd (run_adds [add_url; add_upload] empty)))
       = Return [_id d].
Proof.
  apply (path_uniqueness [add_url] add_upload (JObj [])
           (ImgBytes [Byte.x00; Byte.x01]) "x.jpg" empty); reflexivity.
Defined.

Lemma search_cutoff_monotone_witness :
  exists e2 : envelope,
    fst (search_handler cfg (search_min "100") stocked) = Return e2
    /\ (List.length (result e2)
        <= List.length
             (result (ok "search"
                        [JObj [("score", JNum 100);
                               ("filepath", JStr "abcde");
                               ("metadata", JNull)];
                         JObj [("score", JNum (300 # 4));
                               ("filepath", JStr "x.jpg");
                               ("metadata", JNum 7)]])))%nat.
Proof.
  apply (search_cutoff_monotone cfg (search_min "50") (search_min "100")
           stocked (ImgUrl "abcd") 50 100);
    try reflexivity; discriminate.
Defined.

(** ** The further properties on the small instance *)

Lemma demo_ids_distinct : NoDup (map _id (docs stocked)).
Proof.
  cbv. repeat (apply NoDup_cons; [simpl; intuition discriminate|]).
  apply NoDup_nil.
Qed.


Lemma demo_distance_bounded (s t : nat) : 0 <= normalized_distance s t <= 1.
Proof.
  change (0 <= (if Nat.eqb s t then 0
                else if Nat.eqb (S s) t || Nat.eqb s (S t) then 1 # 4
                     else 1) <= 1).
  destruct (Nat.eqb s t); [split; discriminate|].
  destruct (Nat.eqb (S s) t || Nat.eqb s (S t)); split; discriminate.
Qed.

Lemma demo_distance_self (s : nat) : normalized_distance s s == 0.
Proof.
  change ((if Nat.eqb s s then 0
           else if Nat.eqb (S s) s || Nat.eqb s (S s) then 1 # 4 else 1)
          == 0).
  rewrite Nat.eqb_refl. reflexivity.
Qed.

Lemma login_required_denies_witness :
  serve guarded delete_handler delete_x stocked
  = (Return (EmptyObject, 403%Z), stocked).
Proof.
  unfold serve.
  apply (login_required_denies guarded) with (t := "s3cret"%string);
    [reflexivity | discriminate | discriminate].
Defined.

Lemma login_required_passes_witness :
  login_required guarded (fun _ => ret (Envelope (ok "ping" []), 200%Z))
    (with_token "s3cret" delete_x)
  = ret (Envelope (ok "ping" []), 200%Z).
Proof.
  apply (login_required_passes guarded
           (fun _ => ret (Envelope (ok "ping" []), 200%Z))
           (with_token "s3cret" delete_x)).
  right. right. exists "s3cret"%string. split; reflexivity.
Defined.

Lemma delete_without_filepath_witness :
  delete_handler delete_nothing stocked
  = (Raise (BadRequestKeyError "filepath"), stocked)
  /\ respond (fst (delete_handler delete_nothing stocked)) = bad_request
  /\ client_error (respond (fst (delete_handler delete_nothing stocked)))
     = true.
Proof. apply (delete_without_filepath delete_nothing stocked). reflexivity. Defined.

Lemma add_path_choice_witness :
  exists (p : string) (img : image) (md : json) (sg : Sig),
    calls (snd (add_handler add_upload stocked))
    = (calls stocked
         ++ [EsSearchPath p; SesAddImage p img (bytestream img) md]
         ++ map EsDelete (map _id (filter (has_path p) (docs stocked))))%list
    /\ get_image "url" "image" add_upload = Return img
    /\ generate_signature img = Some sg
    /\ filter (has_path p) (docs (snd (add_handler add_upload stocked)))
       = [new_doc (docs stocked) p sg md]
    /\ ((lookup "filepath" (req_form add_upload) = Some p /\ p <> ""%string)
        \/ ((lookup "filepath" (req_form add_upload) = None
             \/ lookup "filepath" (req_form add_upload) = Some ""%string)
            /\ img = ImgUrl p
            /\ lookup "url" (req_form add_upload) = Some p)).
Proof.
  apply (add_path_choice add_upload stocked (ok "add" [])). reflexivity.
Defined.


Lemma add_keeps_other_paths_witness :
  docs (snd (add_handler add_upload stocked))
  = (filter (fun d => negb (has_path "x.jpg" d)) (docs stocked)
       ++ [new_doc (docs stocked) "x.jpg" 2%nat (JObj [])])%list
  /\ (forall q, q <> "x.jpg"%string ->
                filter (has_path q) (docs (snd (add_handler add_upload stocked)))
                = filter (has_path q) (docs stocked))
  /\ NoDup (map _id (docs (snd (add_handler add_upload stocked)))).
Proof.
  apply (add_keeps_other_paths add_upload stocked (JObj [])
           (ImgBytes [Byte.x00; Byte.x01]) "x.jpg" 2%nat);
    [exact demo_ids_distinct | reflexivity | reflexivity].
Defined.

Lemma count_after_add_witness :
  exists n n' : Z,
    fst (count_handler delete_nothing stocked)
    = Return (ok "count" [JNum (inject_Z n)])
    /\ fst (count_handler delete_nothing (snd (add_handler add_upload stocked)))
       = Return (ok "count" [JNum (inject_Z n')])
    /\ (n' = n + 1
             - Z.of_nat (List.length
                           (filter (has_path "x.jpg") (docs stocked))))%Z.
Proof.
  apply (count_after_add add_upload delete_nothing stocked (JObj [])
           (ImgBytes [Byte.x00; Byte.x01]) "x.jpg" 2%nat);
    [exact demo_ids_distinct | reflexivity | reflexivity].
Defined.

Lemma delete_keeps_other_paths_witness :
  docs (snd (delete_handler delete_x stocked))
  = filter (fun d => negb (has_path "x.jpg" d)) (docs stocked)
  /\ NoDup (map _id (docs (snd (delete_handler delete_x stocked)))).
Proof.
  apply (delete_keeps_other_paths delete_x "x.jpg" stocked);
    [exact demo_ids_distinct | reflexivity].
Defined.


Lemma search_rejects_unread_witness :
  search_handler cfg (search_min "high") stocked
  = (Raise (ValueError "could not convert string to float"), stocked)
  /\ (ValueError "could not convert string to float"
      = BadRequestKeyError "image"
      \/ is_ValueError (ValueError "could not convert string to float")
         = true).
Proof.
  apply (search_rejects_unread cfg (search_min "high") stocked).
  right. exists (ImgUrl "abcd"). split; reflexivity.
Defined.

Lemma list_reads_by_method_witness :
  list_handler list_page stocked = list_handler list_noise stocked.
Proof.
  apply (list_reads_by_method list_page list_noise stocked).
  left. repeat split; reflexivity.
Defined.

Lemma list_rejects_bad_numbers_witness :
  list_handler list_bad stocked
  = (Raise (ValueError "invalid literal for int()"), stocked)
  /\ is_ValueError (ValueError "invalid literal for int()") = true.
Proof.
  apply (list_rejects_bad_numbers list_bad stocked).
  right. exists 3%Z. split; reflexivity.
Defined.

Lemma list_page_bounded_witness :
  exists paths : list string,
    fst (list_handler list_second stocked)
    = Return (ok "list" (map JStr paths))
    /\ (Z.of_nat (List.length paths) <= Z.max 5 0)%Z
    /\ ((5 <= 0)%Z \/ (Z.of_nat (List.length (docs stocked)) <= 1)%Z ->
        paths = [])
    /\ (forall p, In p paths -> exists d, In d (docs stocked) /\ path d = p).
Proof.
  apply (list_page_bounded list_second stocked 1 5); reflexivity.
Defined.

Lemma deleted_path_not_listed_witness :
  ~ In (JStr "x.jpg") (result (ok "list" [JStr "abcde"])).
Proof.
  apply (deleted_path_not_listed delete_x list_default "x.jpg" stocked);
    reflexivity.
Defined.

Lemma added_path_listed_once_witness :
  let w' := snd (add_handler add_upload stocked) in
  exists paths : list string,
    fst (paths_at_location 0%Z (Z.of_nat (List.length (docs w'))) w')
    = Return paths
    /\ List.length paths = List.length (docs w')
    /\ count_occ string_dec paths "x.jpg" = 1%nat.
Proof.
  apply (added_path_listed_once add_upload stocked (JObj [])
           (ImgBytes [Byte.x00; Byte.x01]) "x.jpg" 2%nat); reflexivity.
Defined.

Lemma compare_score_range_witness :
  exists q, result (ok "compare" [JObj [("score", JNum (300 # 4))]])
            = [JObj [("score", JNum q)]]
            /\ 0 <= q <= 100.
Proof.
  apply (compare_score_range compare_ab stocked);
    [exact demo_distance_bounded | reflexivity].
Defined.

Lemma count_after_delete_witness :
  exists n n' : Z,
    fst (count_handler delete_nothing stocked)
    = Return (ok "count" [JNum (inject_Z n)])
    /\ fst (count_handler delete_nothing (snd (delete_handler delete_x stocked)))
       = Return (ok "count" [JNum (inject_Z n')])
    /\ (n' = n - Z.of_nat (List.length
                             (filter (has_path "x.jpg") (docs stocked))))%Z.
Proof.
  apply (count_after_delete delete_x delete_nothing "x.jpg" stocked);
    [exact demo_ids_distinct | reflexivity].
Defined.

Lemma add_search_round_trip_witness :
  exists q,
    In (JObj [("score", JNum q); ("filepath", JStr "x.jpg");
              ("metadata", JObj [])])
      (result (ok "search"
                 [JObj [("score", JNum 100); ("filepath", JStr "x.jpg");
                        ("metadata", JObj [])]]))
    /\ q == 100.
Proof.
  apply (add_search_round_trip cfg add_upload search_upload stocked (JObj [])
           (ImgBytes [Byte.x00; Byte.x01]) "x.jpg" 2%nat 50);
    [ intros s t; apply demo_distance_bounded | exact demo_distance_self
    | reflexivity .. ].
Defined.
